(** * edgecontext/validator.go: token validation against rotating public keys

    A shallow embedding of [shouldShortCircutError], [ValidateToken] and
    [validatorMiddleware].  The package-level state ([keysValue], the
    [logger]) is threaded through a small state monad; the calls into
    [jwt-go] and into the [secrets] package are parameters of a Section. *)

From Stdlib Require Import ZArith List String Ascii Bool Lia DecimalString.
Import ListNotations.
Open Scope string_scope.
Open Scope Z_scope.

(** ** The parts of gopkg.in/dgrijalva/jwt-go.v3 the validator touches *)

Module jwt.

(** The [ValidationError...] bit flags, [1 << iota] in declaration order. *)
Definition ValidationErrorMalformed        : Z := Z.shiftl 1 0.
Definition ValidationErrorUnverifiable     : Z := Z.shiftl 1 1.
Definition ValidationErrorSignatureInvalid : Z := Z.shiftl 1 2.
Definition ValidationErrorAudience         : Z := Z.shiftl 1 3.
Definition ValidationErrorExpired          : Z := Z.shiftl 1 4.
Definition ValidationErrorIssuedAt         : Z := Z.shiftl 1 5.
Definition ValidationErrorIssuer           : Z := Z.shiftl 1 6.
Definition ValidationErrorNotValidYet      : Z := Z.shiftl 1 7.
Definition ValidationErrorId               : Z := Z.shiftl 1 8.
Definition ValidationErrorClaimsInvalid    : Z := Z.shiftl 1 9.

(** [type ValidationError struct { Inner error; Errors uint32; text string }].
    [Inner] is only ever rendered, so it is kept as its message. *)
Record ValidationError : Type := {
  Inner  : option string;
  Errors : Z;
  text   : string
}.

(** [func (e ValidationError) Error() string] *)
Definition ValidationError_Error (e : ValidationError) : string :=
  match Inner e with
  | Some msg => msg
  | None => if String.eqb (text e) "" then "token is invalid" else text e
  end.

(** [SigningMethod] is only asked for its [Alg()]. *)
Record SigningMethod : Type := { Alg : string }.

End jwt.

(** ** Go's [error] interface

    An interface value carries its dynamic type.  [jwt.ValidationError] has
    its [Error] method on the value receiver, so both the struct and a
    pointer to it are errors; they are different dynamic types. *)
Inductive error : Type :=
| errorString (s : string)                         (* errors.New *)
| wrapError (msg : string) (err : error)           (* fmt.Errorf with %w: has Unwrap *)
| ValidationErrorValue (ve : jwt.ValidationError)  (* dynamic type jwt.ValidationError *)
| ValidationErrorPointer (ve : jwt.ValidationError)(* dynamic type *jwt.ValidationError *).

(** [err.Error()] *)
Definition error_Error (err : error) : string :=
  match err with
  | errorString s => s
  | wrapError msg _ => msg
  | ValidationErrorValue ve => jwt.ValidationError_Error ve
  | ValidationErrorPointer ve => jwt.ValidationError_Error ve
  end.

(** [errors.New] *)
Definition errors_New (s : string) : error := errorString s.

(** [jwt.NewValidationError(errorText, errorFlags)] returns
    [&ValidationError{text: errorText, Errors: errorFlags}]. *)
Definition jwt_NewValidationError (errorText : string) (errorFlags : Z) : error :=
  ValidationErrorPointer
    {| jwt.Inner := None; jwt.Errors := errorFlags; jwt.text := errorText |}.

(** [var ve jwt.ValidationError; errors.As(err, &ve)]: walk the [Unwrap]
    chain for an error whose dynamic type is assignable to the type of [ve],
    the struct type [jwt.ValidationError]. *)
Fixpoint errors_As_ValidationError (err : error) : option jwt.ValidationError :=
  match err with
  | ValidationErrorValue ve => Some ve
  | wrapError _ inner => errors_As_ValidationError inner
  | errorString _ => None
  | ValidationErrorPointer _ => None
  end.

(** ** Constants and the short-circuit table *)

Definition authenticationPubKeySecretPath : string := "secret/authentication/public-key".
Definition jwtAlg : string := "RS256".

Definition shortCircuitErrors : list Z :=
  [ jwt.ValidationErrorMalformed;
    jwt.ValidationErrorAudience;
    jwt.ValidationErrorExpired;
    jwt.ValidationErrorIssuedAt;
    jwt.ValidationErrorIssuer;
    jwt.ValidationErrorNotValidYet;
    jwt.ValidationErrorId;
    jwt.ValidationErrorClaimsInvalid ].

(** [for _, bitmask := range masks { if errs&bitmask != 0 { return true } }; false] *)
Fixpoint anyBitSet (errs : Z) (masks : list Z) : bool :=
  match masks with
  | [] => false
  | bitmask :: rest =>
      if negb (Z.land errs bitmask =? 0) then true else anyBitSet errs rest
  end.

Definition shouldShortCircutError (err : error) : bool :=
  match errors_As_ValidationError err with
  | Some ve => anyBitSet (jwt.Errors ve) shortCircuitErrors
  | None => false
  end.

(** ** Keys and the package state *)

(** [*rsa.PublicKey]: modulus and public exponent. *)
Record PublicKey : Type := { N : Z; E : Z }.

Definition keysType : Type := list PublicKey.

(** [keysValue] is an [atomic.Value]: [None] until the first [Store].  The
    [logger] appends to [logged].  [attempts] is a ghost trace of the calls
    to [jwt.ParseWithClaims], oldest first. *)
Record world : Type := {
  keysValue : option keysType;
  logged    : list string;
  attempts  : list (string * PublicKey)
}.

(** The world at process start: nothing stored, nothing logged. *)
Definition initialWorld : world :=
  {| keysValue := None; logged := []; attempts := [] |}.

Definition M (A : Type) : Type := world -> A * world.

Definition ret {A} (a : A) : M A := fun w => (a, w).

Definition bind {A B} (m : M A) (k : A -> M B) : M B :=
  fun w => let (a, w') := m w in k a w'.

Declare Scope go_scope.
Delimit Scope go_scope with go.
Notation "x <- m ;; k" := (bind m (fun x => k))
  (at level 61, m at next level, right associativity) : go_scope.
Notation "m ;;; k" := (bind m (fun _ => k))
  (at level 61, right associativity) : go_scope.
Open Scope go_scope.

Definition keysValue_Load : M (option keysType) :=
  fun w => (keysValue w, w).

Definition keysValue_Store (keys : keysType) : M unit :=
  fun w => (tt, {| keysValue := Some keys; logged := logged w; attempts := attempts w |}).

Definition logger (msg : string) : M unit :=
  fun w => (tt, {| keysValue := keysValue w; logged := logged w ++ [msg]; attempts := attempts w |}).

(** *** fmt.Sprintf for the three verbs used *)

Definition dquote : string := String (ascii_of_nat 34) EmptyString.

(** [%q] of a string without characters that need escaping. *)
Definition fmt_q (s : string) : string := dquote ++ s ++ dquote.

(** [%d] of a slice index. *)
Definition fmt_d (i : nat) : string := NilEmpty.string_of_uint (Nat.to_uint i).

(** [%v] of an error. *)
Definition fmt_v (err : error) : string := error_Error err.

(** ** The validator and the secrets middleware *)

Section Validator.

(** [AuthenticationToken] is declared elsewhere in the package; the
    validator only passes it through. *)
Variable AuthenticationToken : Type.

(** [jwt.Claims] is an interface: the type assertion of [token.Claims] to
    [*AuthenticationToken] succeeds on the first dynamic type only.  The
    pointer is the one [ValidateToken] passes in, so it is never nil. *)
Inductive Claims : Type :=
| AuthenticationTokenPtr (claims : AuthenticationToken)
| OtherClaims.

(** The fields of [jwt.Token] that [ValidateToken] reads. *)
Record Token : Type := {
  TokenClaims : Claims;
  Valid       : bool;
  Method      : jwt.SigningMethod
}.

(** [jwt.ParseWithClaims(token, &AuthenticationToken{}, keyFunc)] with a
    [keyFunc] that returns [key, nil]: a parsed token when [err == nil],
    the error otherwise. *)
Variable ParseWithClaims : string -> PublicKey -> Token + error.

(** [jwt.ParseRSAPublicKeyFromPEM([]byte(v))] *)
Variable ParseRSAPublicKeyFromPEM : string -> PublicKey + error.

(** The [secrets] package: a store, [sec.GetVersionedSecret(path)] and
    [versioned.GetAll()]. *)
Variable Secrets : Type.
Variable VersionedSecret : Type.
Variable GetVersionedSecret : Secrets -> string -> VersionedSecret + error.
Variable GetAll : VersionedSecret -> list string.

(** One call of [jwt.ParseWithClaims], recorded in the ghost trace. *)
Definition jwt_ParseWithClaims (token : string) (key : PublicKey) : M (Token + error) :=
  fun w => (ParseWithClaims token key,
            {| keysValue := keysValue w; logged := logged w;
               attempts := attempts w ++ [(token, key)] |}).

(** The type assertion of [token.Claims] to [*AuthenticationToken] with
    [ok && token.Valid && token.Method.Alg() == jwtAlg]. *)
Definition acceptedClaims (token : Token) : option AuthenticationToken :=
  match TokenClaims token with
  | AuthenticationTokenPtr claims =>
      if Valid token && String.eqb (jwt.Alg (Method token)) jwtAlg
      then Some claims else None
  | OtherClaims => None
  end.

(** The [for _, key := range keys] loop of [ValidateToken]; [lastErr] is
    [None] for a nil error. *)
Fixpoint validateLoop (token : string) (keys : keysType) (lastErr : option error)
  : M (option AuthenticationToken * option error) :=
  match keys with
  | [] => ret (None, lastErr)
  | key :: rest =>
      r <- jwt_ParseWithClaims token key ;;
      match r with
      | inr err =>
          if shouldShortCircutError err
          then ret (None, Some err)
          else validateLoop token rest (Some err)
      | inl parsed =>
          match acceptedClaims parsed with
          | Some claims => ret (Some claims, None)
          | None => validateLoop token rest (Some (jwt_NewValidationError "" 0))
          end
      end
  end.

Definition ValidateToken (token : string) : M (option AuthenticationToken * option error) :=
  loaded <- keysValue_Load ;;
  match loaded with
  | None => ret (None, Some (errors_New "no public keys loaded"))
  | Some keys => validateLoop token keys None
  end.

(** The [for i, v := range all] loop of the middleware. *)
Fixpoint parseKeys (i : nat) (all : list string) (keys : keysType) : M keysType :=
  match all with
  | [] => ret keys
  | v :: rest =>
      match ParseRSAPublicKeyFromPEM v with
      | inr err =>
          logger ("Failed to parse key #" ++ fmt_d i ++ ": " ++ fmt_v err) ;;;
          parseKeys (S i) rest keys
      | inl key => parseKeys (S i) rest (keys ++ [key])%list
      end
  end.

(** The handler that [validatorMiddleware] returns, without the deferred
    call of [next]. *)
Definition validatorMiddlewareBody (sec : Secrets) : M unit :=
  match GetVersionedSecret sec authenticationPubKeySecretPath with
  | inr err =>
      logger ("Failed to get secrets " ++ fmt_q authenticationPubKeySecretPath
              ++ ": " ++ fmt_v err)
  | inl versioned =>
      let all := GetAll versioned in
      keys <- parseKeys 0 all [] ;;
      if Nat.eqb (List.length keys) 0
      then logger "No valid keys in secrets store."
      else keysValue_Store keys
  end.

(** [defer next(sec)] runs after the body on every path. *)
Definition validatorMiddleware (next : Secrets -> M unit) (sec : Secrets) : M unit :=
  validatorMiddlewareBody sec ;;; next sec.

(** ** Vocabulary of the specification *)

(** The [Errors] bit field of a failure, whichever way the
    [ValidationError] is held and however it is wrapped; [None] for any
    other error. *)
Fixpoint errorBits (err : error) : option Z :=
  match err with
  | ValidationErrorValue ve => Some (jwt.Errors ve)
  | ValidationErrorPointer ve => Some (jwt.Errors ve)
  | errorString _ => None
  | wrapError _ inner => errorBits inner
  end.

(** A failure is of one of the [kinds] when it carries one of their bits. *)
Definition hasKind (kinds : list Z) (err : error) : bool :=
  match errorBits err with
  | Some errs => anyBitSet errs kinds
  | None => false
  end.

(** The seven kinds the specification lists: malformed, audience-mismatch,
    expired, issued-in-future, issuer-mismatch, id-invalid, claims-invalid. *)
Definition specKinds : list Z :=
  [ jwt.ValidationErrorMalformed;
    jwt.ValidationErrorAudience;
    jwt.ValidationErrorExpired;
    jwt.ValidationErrorIssuedAt;
    jwt.ValidationErrorIssuer;
    jwt.ValidationErrorId;
    jwt.ValidationErrorClaimsInvalid ].

(** The error one key leaves behind when it does not produce claims. *)
Definition keyError (token : string) (key : PublicKey) : option error :=
  match ParseWithClaims token key with
  | inr err => Some err
  | inl parsed =>
      match acceptedClaims parsed with
      | Some _ => None
      | None => Some (jwt_NewValidationError "" 0)
      end
  end.

(** A key is passed over when its attempt neither returns claims nor
    aborts the loop. *)
Definition passedOver (token : string) (key : PublicKey) : bool :=
  match ParseWithClaims token key with
  | inr err => negb (shouldShortCircutError err)
  | inl parsed =>
      match acceptedClaims parsed with Some _ => false | None => true end
  end.

(** The keys of a bundle that parse, in bundle order. *)
Fixpoint parsedKeys (all : list string) : keysType :=
  match all with
  | [] => []
  | v :: rest =>
      match ParseRSAPublicKeyFromPEM v with
      | inl key => key :: parsedKeys rest
      | inr _ => parsedKeys rest
      end
  end.

(** The log lines for the versions that do not parse, numbered from [i]. *)
Fixpoint parseFailures (i : nat) (all : list string) : list string :=
  match all with
  | [] => []
  | v :: rest =>
      match ParseRSAPublicKeyFromPEM v with
      | inl _ => parseFailures (S i) rest
      | inr err =>
          ("Failed to parse key #" ++ fmt_d i ++ ": " ++ fmt_v err)
            :: parseFailures (S i) rest
      end
  end.

(** Once a set is published it is not empty. *)
Definition publishedNonEmpty (w : world) : Prop :=
  match keysValue w with
  | Some keys => keys <> []
  | None => True
  end.

Definition attemptsOf (token : string) (keys : keysType) : list (string * PublicKey) :=
  map (fun key => (token, key)) keys.

(** What can happen to the package state: a secret update or a validation. *)
Inductive step : world -> world -> Prop :=
| step_update (sec : Secrets) (w : world) :
    step w (snd (validatorMiddlewareBody sec w))
| step_validate (token : string) (w : world) :
    step w (snd (ValidateToken token w)).

Inductive reachable : world -> Prop :=
| reachable_start : reachable initialWorld
| reachable_step (w w' : world) : reachable w -> step w w' -> reachable w'.

End Validator.

Arguments AuthenticationTokenPtr {AuthenticationToken} claims.
Arguments OtherClaims {AuthenticationToken}.
Arguments TokenClaims {AuthenticationToken} t.
Arguments Valid {AuthenticationToken} t.
Arguments Method {AuthenticationToken} t.
Arguments jwt_ParseWithClaims {AuthenticationToken} ParseWithClaims token key.
Arguments acceptedClaims {AuthenticationToken} token.
Arguments validateLoop {AuthenticationToken} ParseWithClaims token keys lastErr.
Arguments ValidateToken {AuthenticationToken} ParseWithClaims token.
Arguments validatorMiddlewareBody ParseRSAPublicKeyFromPEM {Secrets VersionedSecret}
  GetVersionedSecret GetAll sec.
Arguments validatorMiddleware ParseRSAPublicKeyFromPEM {Secrets VersionedSecret}
  GetVersionedSecret GetAll next sec.
Arguments keyError {AuthenticationToken} ParseWithClaims token key.
Arguments step {AuthenticationToken} ParseWithClaims ParseRSAPublicKeyFromPEM
  {Secrets VersionedSecret} GetVersionedSecret GetAll w w'.
Arguments reachable {AuthenticationToken} ParseWithClaims ParseRSAPublicKeyFromPEM
  {Secrets VersionedSecret} GetVersionedSecret GetAll w.
Arguments passedOver {AuthenticationToken} ParseWithClaims token key.

(** The world after the given calls of [jwt.ParseWithClaims]. *)
Definition recordAttempts (calls : list (string * PublicKey)) (w : world) : world :=
  {| keysValue := keysValue w; logged := logged w; attempts := attempts w ++ calls |}.

(** The error remembered after passing over [keys], starting from [lastErr]. *)
Definition lastErrAfter {AuthenticationToken}
  (ParseWithClaims : string -> PublicKey -> Token AuthenticationToken + error)
  (token : string) (keys : keysType) (lastErr : option error) : option error :=
  fold_left (fun _ key => keyError ParseWithClaims token key) keys lastErr.

(** The world after the given lines went to the [logger]. *)
Definition logLines (msgs : list string) (w : world) : world :=
  {| keysValue := keysValue w; logged := (logged w ++ msgs)%list; attempts := attempts w |}.

(** The abort rule with a given list of kinds: a failed attempt of one of
    the [kinds] ends the loop at once with that failure, and a failed attempt
    of no such kind is remembered while the loop moves to the next key. *)
Definition abortsExactlyOn (kinds : list Z) : Prop :=
  forall (AuthenticationToken : Type)
         (ParseWithClaims : string -> PublicKey -> Token AuthenticationToken + error)
         (token : string) (key : PublicKey) (rest : keysType)
         (lastErr : option error) (err : error) (w : world),
    ParseWithClaims token key = inr err ->
    (hasKind kinds err = true ->
       validateLoop ParseWithClaims token (key :: rest) lastErr w
       = ((None, Some err), recordAttempts [(token, key)] w))
    /\ (hasKind kinds err = false ->
       validateLoop ParseWithClaims token (key :: rest) lastErr w
       = validateLoop ParseWithClaims token rest (Some err)
           (recordAttempts [(token, key)] w)).


(** ** A concrete deployment, for evaluation *)

Module Example.

Definition K1 : PublicKey := {| N := 3233; E := 17 |}.
Definition K2 : PublicKey := {| N := 2773; E := 17 |}.

Definition PublicKey_eqb (a b : PublicKey) : bool :=
  (N a =? N b) && (E a =? E b).

(** Claims are reduced to the subject. *)
Definition parsedAs (alg sub : string) : Token string :=
  {| TokenClaims := AuthenticationTokenPtr sub; Valid := true;
     Method := {| jwt.Alg := alg |} |}.

Definition failure (flags : Z) (msg : string) : jwt.ValidationError :=
  {| jwt.Inner := Some msg; jwt.Errors := flags; jwt.text := "" |}.

Definition badSignature : Z := jwt.ValidationErrorSignatureInvalid.

(** A stand-in for [jwt.ParseWithClaims] on five token strings; [hold] says
    how a [ValidationError] is returned. *)
Definition oracle (hold : jwt.ValidationError -> error)
  (token : string) (key : PublicKey) : Token string + error :=
  if String.eqb token "signed-by-K2" then
    if PublicKey_eqb key K2 then inl (parsedAs "RS256" "alice")
    else inr (hold (failure badSignature "crypto/rsa: verification error"))
  else if String.eqb token "rs384-signed-by-K1" then
    if PublicKey_eqb key K1 then inl (parsedAs "RS384" "alice")
    else inr (hold (failure badSignature "crypto/rsa: verification error"))
  else if String.eqb token "expired-signed-by-K1" then
    if PublicKey_eqb key K1
    then inr (hold (failure jwt.ValidationErrorExpired "token is expired by 1h0m0s"))
    else inr (hold (failure (Z.lor jwt.ValidationErrorExpired badSignature)
                      "crypto/rsa: verification error"))
  else if String.eqb token "not-valid-yet-signed-by-K1" then
    if PublicKey_eqb key K1
    then inr (hold (failure jwt.ValidationErrorNotValidYet "token is not valid yet"))
    else inr (hold (failure (Z.lor jwt.ValidationErrorNotValidYet badSignature)
                      "crypto/rsa: verification error"))
  else
    inr (hold {| jwt.Inner := None; jwt.Errors := jwt.ValidationErrorMalformed;
                 jwt.text := "token contains an invalid number of segments" |}).

(** jwt-go returns every [ValidationError] by pointer. *)
Definition byPointer : string -> PublicKey -> Token string + error :=
  oracle ValidationErrorPointer.

(** A stand-in for [jwt.ParseRSAPublicKeyFromPEM]. *)
Definition parsePEM (v : string) : PublicKey + error :=
  if String.eqb v "PEM-K1" then inl K1
  else if String.eqb v "PEM-K2" then inl K2
  else inr (errorString "Invalid Key: Key must be PEM encoded PKCS1 or PKCS8 private key").

(** A secrets store that holds at most the one versioned secret. *)
Definition store : Type := option (list string).

Definition getVersionedSecret (sec : store) (path : string) : list string + error :=
  match sec with
  | Some versions =>
      if String.eqb path authenticationPubKeySecretPath then inl versions
      else inr (errorString ("secrets: no secret has been found for " ++ path))
  | None => inr (errorString ("secrets: no secret has been found for " ++ path))
  end.

Definition getAll (versioned : list string) : list string := versioned.

Definition update (sec : store) : M unit :=
  validatorMiddlewareBody parsePEM getVersionedSecret getAll sec.

(** The world at process start. *)
Definition start : world := initialWorld.

Definition withKeys (keys : keysType) : world :=
  {| keysValue := Some keys; logged := []; attempts := [] |}.

End Example.

(** * Properties *)

Open Scope list_scope.

(** ** The short-circuit table *)

Lemma anyBitSet_spec (errs : Z) (masks : list Z) :
  anyBitSet errs masks = true <-> exists m, In m masks /\ Z.land errs m <> 0.
Proof.
  induction masks as [|b rest IH]; simpl.
  - split; [discriminate | intros [m [[] _]]].
  - destruct (Z.eqb_spec (Z.land errs b) 0) as [Hz|Hnz]; simpl.
    + rewrite IH. split.
      * intros [m [Hin Hm]]. exists m. auto.
      * intros [m [[Heq|Hin] Hm]]; [subst; contradiction | exists m; auto].
    + split; [intros _; exists b; auto | reflexivity].
Qed.

(** A [ValidationError] held by pointer is not found by [errors.As] into a
    [jwt.ValidationError] variable, whatever its bits. *)
Lemma shouldShortCircutError_pointer (ve : jwt.ValidationError) :
  shouldShortCircutError (ValidationErrorPointer ve) = false.
Proof. reflexivity. Qed.

Lemma shouldShortCircutError_errorString (s : string) :
  shouldShortCircutError (errorString s) = false.
Proof. reflexivity. Qed.

(** ** The trace of attempts *)

Lemma recordAttempts_nil (w : world) : recordAttempts [] w = w.
Proof. destruct w; unfold recordAttempts; simpl. now rewrite app_nil_r. Qed.

Lemma recordAttempts_app (a b : list (string * PublicKey)) (w : world) :
  recordAttempts b (recordAttempts a w) = recordAttempts (a ++ b) w.
Proof. unfold recordAttempts; simpl. now rewrite app_assoc. Qed.

Section Correctness.

Variable AuthenticationToken : Type.
Variable ParseWithClaims : string -> PublicKey -> Token AuthenticationToken + error.
Variable ParseRSAPublicKeyFromPEM : string -> PublicKey + error.
Variable Secrets : Type.
Variable VersionedSecret : Type.
Variable GetVersionedSecret : Secrets -> string -> VersionedSecret + error.
Variable GetAll : VersionedSecret -> list string.

(** *** One iteration of the loop, by the outcome of the attempt *)

Lemma validateLoop_abort token key rest lastErr err w :
  ParseWithClaims token key = inr err ->
  shouldShortCircutError err = true ->
  validateLoop ParseWithClaims token (key :: rest) lastErr w
  = ((None, Some err), recordAttempts [(token, key)] w).
Proof.
  intros Hp Hs. simpl. unfold bind, jwt_ParseWithClaims.
  rewrite Hp, Hs. reflexivity.
Qed.

Lemma validateLoop_next token key rest lastErr err w :
  ParseWithClaims token key = inr err ->
  shouldShortCircutError err = false ->
  validateLoop ParseWithClaims token (key :: rest) lastErr w
  = validateLoop ParseWithClaims token rest (Some err)
      (recordAttempts [(token, key)] w).
Proof.
  intros Hp Hs. simpl. unfold bind, jwt_ParseWithClaims.
  rewrite Hp, Hs. reflexivity.
Qed.

Lemma validateLoop_accept token key rest lastErr parsed claims w :
  ParseWithClaims token key = inl parsed ->
  acceptedClaims parsed = Some claims ->
  validateLoop ParseWithClaims token (key :: rest) lastErr w
  = ((Some claims, None), recordAttempts [(token, key)] w).
Proof.
  intros Hp Ha. simpl. unfold bind, jwt_ParseWithClaims.
  rewrite Hp, Ha. reflexivity.
Qed.

Lemma validateLoop_reject token key rest lastErr parsed w :
  ParseWithClaims token key = inl parsed ->
  acceptedClaims parsed = None ->
  validateLoop ParseWithClaims token (key :: rest) lastErr w
  = validateLoop ParseWithClaims token rest (Some (jwt_NewValidationError "" 0))
      (recordAttempts [(token, key)] w).
Proof.
  intros Hp Ha. simpl. unfold bind, jwt_ParseWithClaims.
  rewrite Hp, Ha. reflexivity.
Qed.

Lemma validateLoop_passedOver token key rest lastErr w :
  passedOver ParseWithClaims token key = true ->
  validateLoop ParseWithClaims token (key :: rest) lastErr w
  = validateLoop ParseWithClaims token rest (keyError ParseWithClaims token key)
      (recordAttempts [(token, key)] w).
Proof.
  unfold passedOver, keyError. intros Hp.
  destruct (ParseWithClaims token key) as [parsed|err] eqn:Hr.
  - destruct (acceptedClaims parsed) eqn:Ha; [discriminate|].
    now apply validateLoop_reject with parsed.
  - apply validateLoop_next; [assumption|].
    now destruct (shouldShortCircutError err).
Qed.

(** Keys that are passed over are all tried, in order, and leave the error
    of the last of them. *)
Lemma validateLoop_prefix token pre rest :
  forall lastErr w,
    forallb (passedOver ParseWithClaims token) pre = true ->
    validateLoop ParseWithClaims token (pre ++ rest) lastErr w
    = validateLoop ParseWithClaims token rest
        (lastErrAfter ParseWithClaims token pre lastErr)
        (recordAttempts (attemptsOf token pre) w).
Proof.
  induction pre as [|k pre IH]; intros lastErr w Hall.
  - simpl. now rewrite recordAttempts_nil.
  - simpl in Hall. apply andb_true_iff in Hall as [Hk Hpre].
    rewrite <- app_comm_cons, (validateLoop_passedOver _ _ _ _ _ Hk).
    rewrite IH by assumption. rewrite recordAttempts_app. reflexivity.
Qed.

(** The loop only ever appends to the trace: it tries a prefix of the keys
    and touches neither the published set nor the log. *)
Lemma validateLoop_trace token keys :
  forall lastErr w,
  exists tried untried,
    keys = (tried ++ untried)%list /\
    snd (validateLoop ParseWithClaims token keys lastErr w)
    = recordAttempts (attemptsOf token tried) w.
Proof.
  induction keys as [|k keys IH]; intros lastErr w.
  - exists [], []. split; [reflexivity|]. simpl. now rewrite recordAttempts_nil.
  - simpl. unfold bind, jwt_ParseWithClaims.
    fold (recordAttempts [(token, k)] w).
    destruct (ParseWithClaims token k) as [parsed|err].
    + destruct (acceptedClaims parsed).
      * exists [k], keys. split; reflexivity.
      * destruct (IH (Some (jwt_NewValidationError "" 0))
                    (recordAttempts [(token, k)] w)) as [tr [un [Hk Hw]]].
        exists (k :: tr), un. split; [now rewrite Hk|].
        rewrite Hw, recordAttempts_app. reflexivity.
    + destruct (shouldShortCircutError err).
      * exists [k], keys. split; reflexivity.
      * destruct (IH (Some err) (recordAttempts [(token, k)] w))
          as [tr [un [Hk Hw]]].
        exists (k :: tr), un. split; [now rewrite Hk|].
        rewrite Hw, recordAttempts_app. reflexivity.
Qed.

(** The outcome of the loop does not depend on the world it runs in. *)
Lemma validateLoop_outcome token keys :
  forall lastErr w1 w2,
    fst (validateLoop ParseWithClaims token keys lastErr w1)
    = fst (validateLoop ParseWithClaims token keys lastErr w2).
Proof.
  induction keys as [|k keys IH]; intros lastErr w1 w2; [reflexivity|].
  simpl. unfold bind, jwt_ParseWithClaims.
  destruct (ParseWithClaims token k) as [parsed|err].
  - destruct (acceptedClaims parsed); [reflexivity | apply IH].
  - destruct (shouldShortCircutError err); [reflexivity | apply IH].
Qed.

(** ** A store that was never published to *)

(** C3.  When nothing was ever stored in [keysValue], [ValidateToken] returns
    no claims and the error [no public keys loaded], and leaves the world as
    it is: no call of [jwt.ParseWithClaims] is made. *)
Theorem ValidateToken_no_keys token w :
  keysValue w = None ->
  ValidateToken ParseWithClaims token w
  = ((None, Some (errors_New "no public keys loaded")), w).
Proof.
  intros Hk. unfold ValidateToken, bind, keysValue_Load. now rewrite Hk.
Qed.

(** ** First key that verifies wins *)

Lemma signature_failure_passedOver token key err :
  ParseWithClaims token key = inr err ->
  errorBits err = Some jwt.ValidationErrorSignatureInvalid ->
  passedOver ParseWithClaims token key = true.
Proof.
  intros Hp Hbits. unfold passedOver. rewrite Hp. clear Hp.
  apply negb_true_iff. unfold shouldShortCircutError.
  induction err as [s|msg inner IH|ve|ve]; simpl in *.
  - reflexivity.
  - now apply IH.
  - injection Hbits as Hbits. now rewrite Hbits.
  - reflexivity.
Qed.

(** C6.  With the published set [K1; K2] and a token whose attempt under [K1]
    fails with the signature-invalid kind while the attempt under [K2]
    verifies, with valid claims of type [AuthenticationToken] and algorithm
    RS256, [ValidateToken] makes exactly the two attempts, in that order, and
    returns the claims of the token.  In general, when the keys before [key]
    are passed over and [key] is accepted, the claims come back after the
    attempts up to [key], and no later key is tried. *)
Theorem first_accepting_key_wins token w :
  (forall K1 K2 err parsed claims,
      keysValue w = Some [K1; K2] ->
      ParseWithClaims token K1 = inr err ->
      errorBits err = Some jwt.ValidationErrorSignatureInvalid ->
      ParseWithClaims token K2 = inl parsed ->
      TokenClaims parsed = AuthenticationTokenPtr claims ->
      Valid parsed = true ->
      jwt.Alg (Method parsed) = jwtAlg ->
      ValidateToken ParseWithClaims token w
      = ((Some claims, None), recordAttempts [(token, K1); (token, K2)] w))
  /\ (forall pre key post parsed claims,
      keysValue w = Some (pre ++ key :: post) ->
      forallb (passedOver ParseWithClaims token) pre = true ->
      ParseWithClaims token key = inl parsed ->
      acceptedClaims parsed = Some claims ->
      ValidateToken ParseWithClaims token w
      = ((Some claims, None), recordAttempts (attemptsOf token (pre ++ [key])) w)).
Proof.
  assert (Hgen : forall pre key post parsed claims,
      keysValue w = Some (pre ++ key :: post) ->
      forallb (passedOver ParseWithClaims token) pre = true ->
      ParseWithClaims token key = inl parsed ->
      acceptedClaims parsed = Some claims ->
      ValidateToken ParseWithClaims token w
      = ((Some claims, None), recordAttempts (attemptsOf token (pre ++ [key])) w)).
  { intros pre key post parsed claims Hk Hpre Hp Ha.
    unfold ValidateToken, bind, keysValue_Load. rewrite Hk.
    rewrite validateLoop_prefix by assumption.
    rewrite (validateLoop_accept _ _ _ _ _ _ _ Hp Ha).
    rewrite recordAttempts_app. unfold attemptsOf. now rewrite map_app. }
  split; [|exact Hgen].
  intros K1 K2 err parsed claims Hk H1 Hbits H2 Hc Hv Halg.
  apply (Hgen [K1] K2 [] parsed claims Hk).
  - simpl. now rewrite (signature_failure_passedOver _ _ _ H1 Hbits).
  - assumption.
  - unfold acceptedClaims. rewrite Hc, Hv, Halg. reflexivity.
Qed.

(** ** Running out of keys *)



(** ** A verified token that is not accepted *)

Lemma validateLoop_tries_first token key rest lastErr w :
  exists tried untried,
    rest = tried ++ untried
    /\ snd (validateLoop ParseWithClaims token (key :: rest) lastErr w)
       = recordAttempts (attemptsOf token (key :: tried)) w.
Proof.
  simpl validateLoop. unfold bind, jwt_ParseWithClaims.
  fold (recordAttempts [(token, key)] w).
  destruct (ParseWithClaims token key) as [parsed|err].
  - destruct (acceptedClaims parsed).
    + exists [], rest. split; reflexivity.
    + destruct (validateLoop_trace token rest
                  (Some (jwt_NewValidationError "" 0))
                  (recordAttempts [(token, key)] w)) as [tr [un [Hk Hw]]].
      exists tr, un. split; [assumption|].
      rewrite Hw, recordAttempts_app. reflexivity.
  - destruct (shouldShortCircutError err).
    + exists [], rest. split; reflexivity.
    + destruct (validateLoop_trace token rest (Some err)
                  (recordAttempts [(token, key)] w)) as [tr [un [Hk Hw]]].
      exists tr, un. split; [assumption|].
      rewrite Hw, recordAttempts_app. reflexivity.
Qed.

Lemma rejected_passedOver token key (parsed : Token AuthenticationToken) :
  ParseWithClaims token key = inl parsed ->
  jwt.Alg (Method parsed) <> jwtAlg \/ TokenClaims parsed = OtherClaims ->
  passedOver ParseWithClaims token key = true
  /\ keyError ParseWithClaims token key = Some (jwt_NewValidationError "" 0).
Proof.
  intros Hp Hwhy. unfold passedOver, keyError. rewrite Hp.
  assert (Ha : acceptedClaims parsed = None).
  { unfold acceptedClaims. destruct Hwhy as [Halg|Hcl].
    - apply String.eqb_neq in Halg. rewrite Halg, andb_false_r.
      now destruct (TokenClaims parsed).
    - now rewrite Hcl. }
  rewrite Ha. split; reflexivity.
Qed.

(** C9.  When the attempt under [key] returns a token without error, but the
    algorithm of the token is not RS256 or its claims are not an
    [AuthenticationToken], [ValidateToken] does not return at [key].  If
    [key] is the last key, the result is nil claims with
    [jwt.NewValidationError("", 0)], whose bit field is empty: that error was
    recorded as the last error.  If a key follows, it is tried.  If a later
    key accepts the token and the keys between are passed over, the claims of
    that later key come back. *)
Theorem rejected_token_tries_next_key token pre key post parsed w :
  keysValue w = Some (pre ++ key :: post) ->
  forallb (passedOver ParseWithClaims token) pre = true ->
  ParseWithClaims token key = inl parsed ->
  jwt.Alg (Method parsed) <> jwtAlg \/ TokenClaims parsed = OtherClaims ->
  (post = [] ->
   ValidateToken ParseWithClaims token w
   = ((None, Some (jwt_NewValidationError "" 0)),
      recordAttempts (attemptsOf token (pre ++ [key])) w))
  /\ (forall next rest,
      post = next :: rest ->
      exists tried untried,
        rest = tried ++ untried
        /\ snd (ValidateToken ParseWithClaims token w)
           = recordAttempts (attemptsOf token (pre ++ key :: next :: tried)) w)
  /\ (forall mid next rest accepted claims,
      post = mid ++ next :: rest ->
      forallb (passedOver ParseWithClaims token) mid = true ->
      ParseWithClaims token next = inl accepted ->
      acceptedClaims accepted = Some claims ->
      ValidateToken ParseWithClaims token w
      = ((Some claims, None),
         recordAttempts (attemptsOf token (pre ++ key :: mid ++ [next])) w))
  /\ errorBits (jwt_NewValidationError "" 0) = Some 0.
Proof.
  intros Hk Hpre Hp Hwhy.
  destruct (rejected_passedOver _ _ _ Hp Hwhy) as [Hover Herr].
  assert (Hrun : ValidateToken ParseWithClaims token w
                 = validateLoop ParseWithClaims token post
                     (Some (jwt_NewValidationError "" 0))
                     (recordAttempts (attemptsOf token (pre ++ [key])) w)).
  { unfold ValidateToken, bind, keysValue_Load. rewrite Hk.
    replace (pre ++ key :: post) with ((pre ++ [key]) ++ post)
      by (now rewrite <- app_assoc).
    rewrite validateLoop_prefix
      by (rewrite forallb_app, Hpre; simpl; now rewrite Hover).
    unfold lastErrAfter. rewrite fold_left_app. simpl. now rewrite Herr. }
  rewrite Hrun. repeat split.
  - intros ->. reflexivity.
  - intros next rest ->.
    destruct (validateLoop_tries_first token next rest
                (Some (jwt_NewValidationError "" 0))
                (recordAttempts (attemptsOf token (pre ++ [key])) w))
      as [tried [untried [Hrest Hw]]].
    exists tried, untried. split; [assumption|].
    rewrite Hw, recordAttempts_app. unfold attemptsOf.
    rewrite !map_app. simpl. rewrite <- ?app_assoc. reflexivity.
  - intros mid next rest accepted claims -> Hmid Hn Ha.
    rewrite validateLoop_prefix by assumption.
    rewrite (validateLoop_accept _ _ _ _ _ _ _ Hn Ha).
    rewrite !recordAttempts_app. unfold attemptsOf.
    rewrite !map_app. simpl. rewrite !map_app. simpl.
    rewrite <- ?app_assoc. reflexivity.
Qed.

(** ** Never nil and nil *)

Lemma validateLoop_not_both_nil token keys :
  forall lastErr w,
    (keys <> [] \/ lastErr <> None) ->
    let r := fst (validateLoop ParseWithClaims token keys lastErr w) in
    fst r <> None \/ snd r <> None.
Proof.
  induction keys as [|k keys IH]; intros lastErr w Hne.
  - destruct Hne as [Hne|Hne]; [contradiction|]. right. exact Hne.
  - simpl. unfold bind, jwt_ParseWithClaims.
    destruct (ParseWithClaims token k) as [parsed|err].
    + destruct (acceptedClaims parsed).
      * left. discriminate.
      * apply IH. right. discriminate.
    + destruct (shouldShortCircutError err).
      * right. discriminate.
      * apply IH. right. discriminate.
Qed.

(** C10.  In a world where the published set, if any, is not empty,
    [ValidateToken] returns claims or an error: never nil and nil. *)
Theorem ValidateToken_not_both_nil token w :
  publishedNonEmpty w ->
  fst (fst (ValidateToken ParseWithClaims token w)) <> None
  \/ snd (fst (ValidateToken ParseWithClaims token w)) <> None.
Proof.
  unfold publishedNonEmpty, ValidateToken, bind, keysValue_Load.
  destruct (keysValue w) as [keys|]; intros Hne.
  - apply validateLoop_not_both_nil. now left.
  - right. discriminate.
Qed.

(** The precondition is needed: over an empty published set the loop body
    never runs and both results are nil. *)
Lemma ValidateToken_empty_set token w :
  keysValue w = Some [] ->
  ValidateToken ParseWithClaims token w = ((None, None), w).
Proof.
  intros Hk. unfold ValidateToken, bind, keysValue_Load. now rewrite Hk.
Qed.

Lemma ValidateToken_keeps_keys token w :
  keysValue (snd (ValidateToken ParseWithClaims token w)) = keysValue w.
Proof.
  unfold ValidateToken, bind, keysValue_Load.
  destruct (keysValue w) as [keys|] eqn:Hk; [|exact Hk].
  destruct (validateLoop_trace token keys None w)
    as [tried [untried [_ Hw]]].
  rewrite Hw. exact Hk.
Qed.

(** ** Secret updates *)

Lemma parseKeys_spec all :
  forall i keys w,
    parseKeys ParseRSAPublicKeyFromPEM i all keys w
    = (keys ++ parsedKeys ParseRSAPublicKeyFromPEM all,
       logLines (parseFailures ParseRSAPublicKeyFromPEM i all) w).
Proof.
  induction all as [|v rest IH]; intros i keys w; simpl.
  - rewrite app_nil_r. unfold ret, logLines. destruct w; simpl.
    now rewrite app_nil_r.
  - destruct (ParseRSAPublicKeyFromPEM v) as [key|err].
    + rewrite IH, <- app_assoc. reflexivity.
    + unfold bind, logger. rewrite IH. unfold logLines; simpl.
      now rewrite <- app_assoc.
Qed.

Lemma parsedKeys_app a b :
  parsedKeys ParseRSAPublicKeyFromPEM (a ++ b)
  = parsedKeys ParseRSAPublicKeyFromPEM a ++ parsedKeys ParseRSAPublicKeyFromPEM b.
Proof.
  induction a as [|v a IH]; simpl; [reflexivity|].
  destruct (ParseRSAPublicKeyFromPEM v); simpl; now rewrite IH.
Qed.

Lemma parseFailures_app a b : forall i,
  parseFailures ParseRSAPublicKeyFromPEM i (a ++ b)
  = parseFailures ParseRSAPublicKeyFromPEM i a
    ++ parseFailures ParseRSAPublicKeyFromPEM (i + List.length a) b.
Proof.
  induction a as [|v a IH]; intros i; simpl.
  - now rewrite Nat.add_0_r.
  - destruct (ParseRSAPublicKeyFromPEM v); simpl; rewrite IH;
      now rewrite Nat.add_succ_comm.
Qed.

(** The body of the middleware, by the three ways it can end. *)
Lemma update_fetch_failed sec err w :
  GetVersionedSecret sec authenticationPubKeySecretPath = inr err ->
  validatorMiddlewareBody ParseRSAPublicKeyFromPEM GetVersionedSecret GetAll sec w
  = (tt, logLines [("Failed to get secrets " ++ fmt_q authenticationPubKeySecretPath
                     ++ ": " ++ fmt_v err)%string] w).
Proof. intros Hf. unfold validatorMiddlewareBody. now rewrite Hf. Qed.

Lemma update_no_keys sec versioned w :
  GetVersionedSecret sec authenticationPubKeySecretPath = inl versioned ->
  parsedKeys ParseRSAPublicKeyFromPEM (GetAll versioned) = [] ->
  validatorMiddlewareBody ParseRSAPublicKeyFromPEM GetVersionedSecret GetAll sec w
  = (tt, logLines (parseFailures ParseRSAPublicKeyFromPEM 0 (GetAll versioned)
                   ++ ["No valid keys in secrets store."%string]) w).
Proof.
  intros Hf Hnone. unfold validatorMiddlewareBody. rewrite Hf.
  unfold bind. rewrite parseKeys_spec, Hnone. simpl.
  unfold logger, logLines; simpl. now rewrite <- app_assoc.
Qed.

Lemma update_some_keys sec versioned w :
  GetVersionedSecret sec authenticationPubKeySecretPath = inl versioned ->
  parsedKeys ParseRSAPublicKeyFromPEM (GetAll versioned) <> [] ->
  validatorMiddlewareBody ParseRSAPublicKeyFromPEM GetVersionedSecret GetAll sec w
  = (tt, {| keysValue := Some (parsedKeys ParseRSAPublicKeyFromPEM (GetAll versioned));
            logged := logged w
                      ++ parseFailures ParseRSAPublicKeyFromPEM 0 (GetAll versioned);
            attempts := attempts w |}).
Proof.
  intros Hf Hsome. unfold validatorMiddlewareBody. rewrite Hf.
  unfold bind. rewrite parseKeys_spec. simpl.
  destruct (parsedKeys ParseRSAPublicKeyFromPEM (GetAll versioned)) as [|k ks];
    [contradiction|reflexivity].
Qed.

Lemma update_keeps_published sec w :
  (publishedNonEmpty w ->
   publishedNonEmpty (snd (validatorMiddlewareBody ParseRSAPublicKeyFromPEM
                             GetVersionedSecret GetAll sec w)))
  /\ (keysValue w <> None ->
      keysValue (snd (validatorMiddlewareBody ParseRSAPublicKeyFromPEM
                        GetVersionedSecret GetAll sec w)) <> None).
Proof.
  unfold publishedNonEmpty.
  destruct (GetVersionedSecret sec authenticationPubKeySecretPath)
    as [versioned|err] eqn:Hf.
  - destruct (parsedKeys ParseRSAPublicKeyFromPEM (GetAll versioned))
      as [|k ks] eqn:Hp.
    + rewrite (update_no_keys _ _ _ Hf Hp). simpl. tauto.
    + assert (Hne : parsedKeys ParseRSAPublicKeyFromPEM (GetAll versioned) <> [])
        by (rewrite Hp; discriminate).
      rewrite (update_some_keys _ _ _ Hf Hne). simpl. rewrite Hp.
      split; intros _; discriminate.
  - rewrite (update_fetch_failed _ _ _ Hf). simpl. tauto.
Qed.

(** C4.  An update whose secret cannot be fetched, or whose bundle has no
    version that parses, leaves [keysValue] as it was.  Hence every update
    keeps a published set published and keeps it non-empty. *)
Theorem update_without_keys_keeps_set sec w :
  (forall err,
      GetVersionedSecret sec authenticationPubKeySecretPath = inr err ->
      keysValue (snd (validatorMiddlewareBody ParseRSAPublicKeyFromPEM
                        GetVersionedSecret GetAll sec w)) = keysValue w)
  /\ (forall versioned,
      GetVersionedSecret sec authenticationPubKeySecretPath = inl versioned ->
      parsedKeys ParseRSAPublicKeyFromPEM (GetAll versioned) = [] ->
      keysValue (snd (validatorMiddlewareBody ParseRSAPublicKeyFromPEM
                        GetVersionedSecret GetAll sec w)) = keysValue w)
  /\ (publishedNonEmpty w ->
      publishedNonEmpty (snd (validatorMiddlewareBody ParseRSAPublicKeyFromPEM
                                GetVersionedSecret GetAll sec w)))
  /\ (keysValue w <> None ->
      keysValue (snd (validatorMiddlewareBody ParseRSAPublicKeyFromPEM
                        GetVersionedSecret GetAll sec w)) <> None).
Proof.
  split; [|split].
  - intros err Hf. now rewrite (update_fetch_failed _ _ _ Hf).
  - intros versioned Hf Hnone. now rewrite (update_no_keys _ _ _ Hf Hnone).
  - apply update_keeps_published.
Qed.

(** C5.  An update whose bundle has a version that parses stores exactly the
    keys that parse, in bundle order, in place of whatever was published, and
    logs one line for each version that does not parse.  A version that does
    not parse is left out, the versions after it are still processed, and its
    line, with its index, is in the log. *)
Theorem update_publishes_parsed_keys sec versioned w :
  GetVersionedSecret sec authenticationPubKeySecretPath = inl versioned ->
  parsedKeys ParseRSAPublicKeyFromPEM (GetAll versioned) <> [] ->
  validatorMiddlewareBody ParseRSAPublicKeyFromPEM GetVersionedSecret GetAll sec w
  = (tt, {| keysValue := Some (parsedKeys ParseRSAPublicKeyFromPEM (GetAll versioned));
            logged := logged w
                      ++ parseFailures ParseRSAPublicKeyFromPEM 0 (GetAll versioned);
            attempts := attempts w |})
  /\ forall pre v post err,
      GetAll versioned = pre ++ v :: post ->
      ParseRSAPublicKeyFromPEM v = inr err ->
      parsedKeys ParseRSAPublicKeyFromPEM (GetAll versioned)
      = parsedKeys ParseRSAPublicKeyFromPEM pre
        ++ parsedKeys ParseRSAPublicKeyFromPEM post
      /\ In ("Failed to parse key #" ++ fmt_d (List.length pre) ++ ": " ++ fmt_v err)%string
            (logged (snd (validatorMiddlewareBody ParseRSAPublicKeyFromPEM
                            GetVersionedSecret GetAll sec w))).
Proof.
  intros Hf Hsome. split; [now apply update_some_keys|].
  intros pre v post err Hall Hv.
  rewrite (update_some_keys _ _ _ Hf Hsome). simpl. rewrite Hall.
  rewrite parsedKeys_app, parseFailures_app. simpl. rewrite Hv. split.
  - reflexivity.
  - apply in_or_app. right. apply in_or_app. right. left. reflexivity.
Qed.

(** ** Reachable worlds *)

(** Every world reached from process start by updates and validations has a
    published set that is not empty, if it has one. *)
Lemma reachable_publishedNonEmpty w :
  reachable ParseWithClaims ParseRSAPublicKeyFromPEM GetVersionedSecret GetAll w ->
  publishedNonEmpty w.
Proof.
  induction 1 as [|w w' _ IH Hstep].
  - exact I.
  - destruct Hstep as [sec w|token w].
    + now apply update_keeps_published.
    + unfold publishedNonEmpty. now rewrite ValidateToken_keeps_keys.
Qed.

(** ** How the failure is held decides whether the loop stops *)

(** When every attempt fails with a [ValidationError] held by pointer, every
    key is tried, whatever the bits of the failures. *)
Lemma pointer_failures_try_every_key token keys w :
  (forall key, In key keys ->
     exists ve, ParseWithClaims token key = inr (ValidationErrorPointer ve)) ->
  snd (ValidateToken ParseWithClaims token
         {| keysValue := Some keys; logged := logged w; attempts := attempts w |})
  = recordAttempts (attemptsOf token keys)
      {| keysValue := Some keys; logged := logged w; attempts := attempts w |}.
Proof.
  intros Hall. unfold ValidateToken, bind, keysValue_Load. simpl.
  rewrite <- (app_nil_r keys) at 1.
  rewrite validateLoop_prefix; [reflexivity|].
  apply forallb_forall. intros key Hin.
  destruct (Hall key Hin) as [ve Hp]. unfold passedOver. now rewrite Hp.
Qed.

(** When the first attempt fails with an expired [ValidationError] held by
    value, the loop stops after that one attempt. *)
Lemma expired_by_value_one_attempt token key rest ve w :
  keysValue w = Some (key :: rest) ->
  ParseWithClaims token key = inr (ValidationErrorValue ve) ->
  Z.land (jwt.Errors ve) jwt.ValidationErrorExpired <> 0 ->
  ValidateToken ParseWithClaims token w
  = ((None, Some (ValidationErrorValue ve)), recordAttempts [(token, key)] w).
Proof.
  intros Hk Hp Hbit. unfold ValidateToken, bind, keysValue_Load. rewrite Hk.
  apply validateLoop_abort; [assumption|].
  unfold shouldShortCircutError. cbn [errors_As_ValidationError].
  apply anyBitSet_spec.
  exists jwt.ValidationErrorExpired. split; [simpl; tauto | assumption].
Qed.

(** The deferred [next] sees the world the body leaves. *)
Lemma validatorMiddleware_defer next sec w :
  validatorMiddleware ParseRSAPublicKeyFromPEM GetVersionedSecret GetAll next sec w
  = next sec (snd (validatorMiddlewareBody ParseRSAPublicKeyFromPEM
                     GetVersionedSecret GetAll sec w)).
Proof.
  unfold validatorMiddleware, bind.
  now destruct (validatorMiddlewareBody ParseRSAPublicKeyFromPEM
                  GetVersionedSecret GetAll sec w).
Qed.

(** * Further properties of the validator and the middleware *)

(** ** The table as one mask *)

Lemma anyBitSet_mask (errs : Z) (masks : list Z) :
  anyBitSet errs masks = negb (Z.land errs (fold_right Z.lor 0 masks) =? 0).
Proof.
  induction masks as [|b rest IH]; simpl.
  - now rewrite Z.land_0_r.
  - rewrite Z.land_lor_distr_r.
    destruct (Z.eqb_spec (Z.land errs b) 0) as [Hz|Hnz]; simpl.
    + now rewrite IH, Hz, Z.lor_0_l.
    + symmetry. apply negb_true_iff, Z.eqb_neq.
      intros Hlor. apply Z.lor_eq_0_iff in Hlor. tauto.
Qed.

(** X1.  Ranging over the table is one mask test: [shouldShortCircutError]
    is true exactly when [errors.As] finds a [jwt.ValidationError] whose
    [Errors] meets 0x3F9, that is bit 0 or one of the bits 3 to 9.  The
    unverifiable and signature-invalid bits (1 and 2) never count. *)
Theorem shouldShortCircutError_mask (err : error) :
  shouldShortCircutError err
  = match errors_As_ValidationError err with
    | Some ve => negb (Z.land (jwt.Errors ve) 1017 =? 0)
    | None => false
    end.
Proof.
  unfold shouldShortCircutError.
  destruct (errors_As_ValidationError err) as [ve|]; [|reflexivity].
  apply anyBitSet_mask.
Qed.

(** ** What a validation does to the world *)

(** X2.  [ValidateToken] stores nothing and logs nothing, and it hands to
    [jwt.ParseWithClaims] a prefix of the published keys, in their order, one
    call for each position. *)
Theorem ValidateToken_tries_prefix token keys w :
  keysValue w = Some keys ->
  exists tried untried,
    keys = tried ++ untried
    /\ snd (ValidateToken ParseWithClaims token w)
       = recordAttempts (attemptsOf token tried) w.
Proof.
  intros Hk. unfold ValidateToken, bind, keysValue_Load. rewrite Hk.
  apply validateLoop_trace.
Qed.

Lemma acceptedClaims_inv (parsed : Token AuthenticationToken) claims :
  acceptedClaims parsed = Some claims ->
  TokenClaims parsed = AuthenticationTokenPtr claims
  /\ Valid parsed = true
  /\ jwt.Alg (Method parsed) = jwtAlg.
Proof.
  unfold acceptedClaims.
  destruct (TokenClaims parsed) as [c|]; [|discriminate].
  destruct (Valid parsed); [|discriminate]. simpl.
  destruct (String.eqb_spec (jwt.Alg (Method parsed)) jwtAlg); [|discriminate].
  intros [= ->]. auto.
Qed.

Lemma validateLoop_sound token keys claims :
  forall lastErr w,
    fst (fst (validateLoop ParseWithClaims token keys lastErr w)) = Some claims ->
    snd (fst (validateLoop ParseWithClaims token keys lastErr w)) = None
    /\ exists key parsed,
        In key keys
        /\ ParseWithClaims token key = inl parsed
        /\ acceptedClaims parsed = Some claims.
Proof.
  induction keys as [|k keys IH]; intros lastErr w; simpl.
  - discriminate.
  - unfold bind, jwt_ParseWithClaims.
    destruct (ParseWithClaims token k) as [parsed|err] eqn:Hp.
    + destruct (acceptedClaims parsed) as [c|] eqn:Ha.
      * simpl. intros [= ->]. split; [reflexivity|].
        exists k, parsed. auto.
      * intros Hc. destruct (IH _ _ Hc) as [Hnil [key [p [Hin Hrest]]]].
        split; [assumption|]. exists key, p. auto.
    + destruct (shouldShortCircutError err).
      * discriminate.
      * intros Hc. destruct (IH _ _ Hc) as [Hnil [key [p [Hin Hrest]]]].
        split; [assumption|]. exists key, p. auto.
Qed.

(** X4.  Claims are only ever returned together with a nil error, and only
    when the attempt under some published key came back without error, with
    [token.Valid] set, the algorithm RS256, and these very claims. *)
Theorem ValidateToken_claims_sound token w claims :
  fst (fst (ValidateToken ParseWithClaims token w)) = Some claims ->
  snd (fst (ValidateToken ParseWithClaims token w)) = None
  /\ exists keys key parsed,
      keysValue w = Some keys
      /\ In key keys
      /\ ParseWithClaims token key = inl parsed
      /\ TokenClaims parsed = AuthenticationTokenPtr claims
      /\ Valid parsed = true
      /\ jwt.Alg (Method parsed) = jwtAlg.
Proof.
  unfold ValidateToken, bind, keysValue_Load.
  destruct (keysValue w) as [keys|]; [|discriminate].
  intros Hc. destruct (validateLoop_sound _ _ _ _ _ Hc)
    as [Hnil [key [parsed [Hin [Hp Ha]]]]].
  split; [assumption|]. exists keys, key, parsed.
  destruct (acceptedClaims_inv _ _ Ha) as [Hcl [Hv Halg]]. auto 10.
Qed.

(** X5.  Nil claims with a nil error come back exactly when the published
    set is the empty slice. *)
Theorem ValidateToken_nil_nil_iff token w :
  fst (ValidateToken ParseWithClaims token w) = (None, None)
  <-> keysValue w = Some [].
Proof.
  split.
  - unfold ValidateToken, bind, keysValue_Load.
    destruct (keysValue w) as [[|k keys]|]; [reflexivity| |discriminate].
    intros Hr.
    destruct (validateLoop_not_both_nil token (k :: keys) None w) as [H|H].
    + left. discriminate.
    + now rewrite Hr in H.
    + now rewrite Hr in H.
  - intros Hk. now rewrite ValidateToken_empty_set.
Qed.

Lemma validateLoop_complete token keys :
  forall lastErr w,
    (forall key err, In key keys ->
       ParseWithClaims token key = inr err -> shouldShortCircutError err = false) ->
    (exists key parsed claims,
       In key keys /\ ParseWithClaims token key = inl parsed
       /\ acceptedClaims parsed = Some claims) ->
    fst (fst (validateLoop ParseWithClaims token keys lastErr w)) <> None.
Proof.
  induction keys as [|k keys IH]; intros lastErr w Hshort Hacc.
  - destruct Hacc as [key [_ [_ [[] _]]]].
  - simpl. unfold bind, jwt_ParseWithClaims.
    assert (Hrest : forall key err, In key keys ->
              ParseWithClaims token key = inr err ->
              shouldShortCircutError err = false)
      by (intros key err Hin; apply Hshort; now right).
    destruct Hacc as [key [parsed [claims [Hin [Hp Ha]]]]].
    destruct (ParseWithClaims token k) as [pk|ek] eqn:Hk.
    + destruct (acceptedClaims pk) as [c|] eqn:Hak; [discriminate|].
      apply IH; [assumption|].
      destruct Hin as [<-|Hin]; [congruence|].
      exists key, parsed, claims. auto.
    + rewrite (Hshort k ek (or_introl eq_refl) Hk).
      apply IH; [assumption|].
      destruct Hin as [<-|Hin]; [congruence|].
      exists key, parsed, claims. auto.
Qed.

(** X6.  When no failed attempt is recognised by [shouldShortCircutError],
    as is the case for every failure held by pointer, the position of a key
    in the set does not matter: the token gets claims exactly when some
    published key accepts it. *)
Theorem ValidateToken_succeeds_iff_accepted token keys w :
  keysValue w = Some keys ->
  (forall key err, In key keys ->
     ParseWithClaims token key = inr err -> shouldShortCircutError err = false) ->
  (fst (fst (ValidateToken ParseWithClaims token w)) <> None
   <-> exists key parsed claims,
       In key keys /\ ParseWithClaims token key = inl parsed
       /\ acceptedClaims parsed = Some claims).
Proof.
  intros Hk Hshort. unfold ValidateToken, bind, keysValue_Load. rewrite Hk.
  split.
  - destruct (fst (fst (validateLoop ParseWithClaims token keys None w)))
      as [claims|] eqn:Hc; [|intros Hno; now destruct Hno].
    intros _. destruct (validateLoop_sound _ _ _ _ _ Hc)
      as [_ [key [parsed [Hin [Hp Ha]]]]].
    exists key, parsed, claims. auto.
  - now apply validateLoop_complete.
Qed.

(** ** What an update does to the world *)

Lemma parsedKeys_In all key :
  In key (parsedKeys ParseRSAPublicKeyFromPEM all)
  <-> exists v, In v all /\ ParseRSAPublicKeyFromPEM v = inl key.
Proof.
  induction all as [|v all IH]; simpl.
  - split; [contradiction | intros [v [[] _]]].
  - destruct (ParseRSAPublicKeyFromPEM v) as [k|err] eqn:Hv; simpl; rewrite IH.
    + split.
      * intros [<-|[v' [Hin Hp]]]; [exists v; auto | exists v'; auto].
      * intros [v' [[<-|Hin] Hp]].
        -- left. congruence.
        -- right. exists v'. auto.
    + split.
      * intros [v' [Hin Hp]]. exists v'. auto.
      * intros [v' [[<-|Hin] Hp]]; [congruence | exists v'; auto].
Qed.

Lemma parseFailures_nil_iff all : forall i,
  parseFailures ParseRSAPublicKeyFromPEM i all = []
  <-> forall v, In v all -> exists key, ParseRSAPublicKeyFromPEM v = inl key.
Proof.
  induction all as [|v all IH]; intros i; simpl.
  - split; [intros _ v [] | reflexivity].
  - destruct (ParseRSAPublicKeyFromPEM v) as [k|err] eqn:Hv.
    + rewrite IH. split.
      * intros Hall v' [<-|Hin]; [exists k; assumption | auto].
      * intros Hall v' Hin. auto.
    + split; [discriminate|].
      intros Hall. destruct (Hall v (or_introl eq_refl)) as [key Hkey].
      congruence.
Qed.

Lemma parsedKeys_all_parse all :
  (forall v, In v all -> exists key, ParseRSAPublicKeyFromPEM v = inl key) ->
  all <> [] ->
  parsedKeys ParseRSAPublicKeyFromPEM all <> [].
Proof.
  destruct all as [|v all]; [contradiction|]. intros Hall _. simpl.
  destruct (Hall v (or_introl eq_refl)) as [key ->]. discriminate.
Qed.

(** The published set after an update, by cases on the bundle. *)
Lemma update_keysValue sec w :
  keysValue (snd (validatorMiddlewareBody ParseRSAPublicKeyFromPEM
                    GetVersionedSecret GetAll sec w))
  = match GetVersionedSecret sec authenticationPubKeySecretPath with
    | inr _ => keysValue w
    | inl versioned =>
        match parsedKeys ParseRSAPublicKeyFromPEM (GetAll versioned) with
        | [] => keysValue w
        | key :: keys => Some (key :: keys)
        end
    end.
Proof.
  destruct (GetVersionedSecret sec authenticationPubKeySecretPath)
    as [versioned|err] eqn:Hf.
  - destruct (parsedKeys ParseRSAPublicKeyFromPEM (GetAll versioned))
      as [|k ks] eqn:Hp.
    + now rewrite (update_no_keys _ _ _ Hf Hp).
    + assert (Hne : parsedKeys ParseRSAPublicKeyFromPEM (GetAll versioned) <> [])
        by (rewrite Hp; discriminate).
      rewrite (update_some_keys _ _ _ Hf Hne). simpl. now rewrite Hp.
  - now rewrite (update_fetch_failed _ _ _ Hf).
Qed.

(** The log and the trace after an update. *)
Lemma update_logged sec w :
  attempts (snd (validatorMiddlewareBody ParseRSAPublicKeyFromPEM
                   GetVersionedSecret GetAll sec w)) = attempts w
  /\ logged (snd (validatorMiddlewareBody ParseRSAPublicKeyFromPEM
                    GetVersionedSecret GetAll sec w))
     = logged w
       ++ match GetVersionedSecret sec authenticationPubKeySecretPath with
          | inr err =>
              [("Failed to get secrets " ++ fmt_q authenticationPubKeySecretPath
                ++ ": " ++ fmt_v err)%string]
          | inl versioned =>
              parseFailures ParseRSAPublicKeyFromPEM 0 (GetAll versioned)
              ++ match parsedKeys ParseRSAPublicKeyFromPEM (GetAll versioned) with
                 | [] => ["No valid keys in secrets store."%string]
                 | _ :: _ => []
                 end
          end.
Proof.
  destruct (GetVersionedSecret sec authenticationPubKeySecretPath)
    as [versioned|err] eqn:Hf.
  - destruct (parsedKeys ParseRSAPublicKeyFromPEM (GetAll versioned))
      as [|k ks] eqn:Hp.
    + rewrite (update_no_keys _ _ _ Hf Hp). split; reflexivity.
    + assert (Hne : parsedKeys ParseRSAPublicKeyFromPEM (GetAll versioned) <> [])
        by (rewrite Hp; discriminate).
      rewrite (update_some_keys _ _ _ Hf Hne). simpl.
      now rewrite app_nil_r.
  - rewrite (update_fetch_failed _ _ _ Hf). split; reflexivity.
Qed.

(** X7.  Handling the same secrets twice publishes what handling them once
    publishes. *)
Theorem update_idempotent_on_keys sec w :
  keysValue (snd (validatorMiddlewareBody ParseRSAPublicKeyFromPEM
                    GetVersionedSecret GetAll sec
                    (snd (validatorMiddlewareBody ParseRSAPublicKeyFromPEM
                            GetVersionedSecret GetAll sec w))))
  = keysValue (snd (validatorMiddlewareBody ParseRSAPublicKeyFromPEM
                      GetVersionedSecret GetAll sec w)).
Proof.
  rewrite (update_keysValue sec (snd _)). rewrite (update_keysValue sec w).
  destruct (GetVersionedSecret sec authenticationPubKeySecretPath)
    as [versioned|err]; [|reflexivity].
  now destruct (parsedKeys ParseRSAPublicKeyFromPEM (GetAll versioned)).
Qed.

(** X8.  An update publishes no key from nowhere: every key of the set after
    the update was in the set before it, or is what
    [jwt.ParseRSAPublicKeyFromPEM] made of a version of the fetched secret. *)
Theorem update_keys_provenance sec w keys' key :
  keysValue (snd (validatorMiddlewareBody ParseRSAPublicKeyFromPEM
                    GetVersionedSecret GetAll sec w)) = Some keys' ->
  In key keys' ->
  (exists keys, keysValue w = Some keys /\ In key keys)
  \/ (exists versioned v,
        GetVersionedSecret sec authenticationPubKeySecretPath = inl versioned
        /\ In v (GetAll versioned)
        /\ ParseRSAPublicKeyFromPEM v = inl key).
Proof.
  rewrite update_keysValue. intros Hafter Hin.
  destruct (GetVersionedSecret sec authenticationPubKeySecretPath)
    as [versioned|err] eqn:Hf.
  - destruct (parsedKeys ParseRSAPublicKeyFromPEM (GetAll versioned))
      as [|k ks] eqn:Hp.
    + left. exists keys'. auto.
    + right. injection Hafter as <-. rewrite <- Hp in Hin.
      apply parsedKeys_In in Hin as [v [Hv Hparse]].
      exists versioned, v. auto.
  - left. exists keys'. auto.
Qed.

(** X9.  An update never calls [jwt.ParseWithClaims] and never drops or
    rewrites a logged line: the log after it is the log before it followed by
    the lines of this update. *)
Theorem update_appends_to_log sec w :
  attempts (snd (validatorMiddlewareBody ParseRSAPublicKeyFromPEM
                   GetVersionedSecret GetAll sec w)) = attempts w
  /\ exists msgs,
      logged (snd (validatorMiddlewareBody ParseRSAPublicKeyFromPEM
                     GetVersionedSecret GetAll sec w)) = logged w ++ msgs.
Proof.
  destruct (update_logged sec w) as [Ha Hl].
  split; [assumption|]. rewrite Hl. eauto.
Qed.

(** X10.  An update logs nothing exactly when the secret is fetched, has at
    least one version, and every version parses. *)
Theorem update_silent_iff sec w :
  logged (snd (validatorMiddlewareBody ParseRSAPublicKeyFromPEM
                 GetVersionedSecret GetAll sec w)) = logged w
  <-> exists versioned,
      GetVersionedSecret sec authenticationPubKeySecretPath = inl versioned
      /\ GetAll versioned <> []
      /\ forall v, In v (GetAll versioned) ->
           exists key, ParseRSAPublicKeyFromPEM v = inl key.
Proof.
  destruct (update_logged sec w) as [_ Hl]. rewrite Hl. clear Hl.
  rewrite <- (app_nil_r (logged w)) at 2.
  split.
  - intros Heq. apply app_inv_head in Heq.
    destruct (GetVersionedSecret sec authenticationPubKeySecretPath)
      as [versioned|err]; [|discriminate].
    exists versioned. split; [reflexivity|].
    destruct (parsedKeys ParseRSAPublicKeyFromPEM (GetAll versioned))
      as [|k ks] eqn:Hp.
    + apply app_eq_nil in Heq as [_ Hno]. discriminate.
    + rewrite app_nil_r in Heq. split.
      * intros Hall. rewrite Hall in Hp. discriminate.
      * now apply (parseFailures_nil_iff (GetAll versioned) 0%nat).
  - intros [versioned [Hf [Hne Hall]]]. rewrite Hf. f_equal.
    destruct (parsedKeys ParseRSAPublicKeyFromPEM (GetAll versioned))
      as [|k ks] eqn:Hp.
    + now destruct (parsedKeys_all_parse _ Hall Hne).
    + rewrite app_nil_r. now apply parseFailures_nil_iff.
Qed.

(** ** Updates followed by validations *)

Lemma ValidateToken_outcome_by_keys token w1 w2 :
  keysValue w1 = keysValue w2 ->
  fst (ValidateToken ParseWithClaims token w1)
  = fst (ValidateToken ParseWithClaims token w2).
Proof.
  intros Hk. unfold ValidateToken, bind, keysValue_Load. rewrite Hk.
  destruct (keysValue w2) as [keys|]; [apply validateLoop_outcome | reflexivity].
Qed.

(** X11.  An update whose fetch fails, or whose bundle has no version that
    parses, changes the outcome of no validation: every token gets the claims
    or the error it got before. *)
Theorem discarded_update_keeps_outcomes sec w token :
  (exists err, GetVersionedSecret sec authenticationPubKeySecretPath = inr err)
  \/ (exists versioned,
        GetVersionedSecret sec authenticationPubKeySecretPath = inl versioned
        /\ forall v, In v (GetAll versioned) ->
             exists err, ParseRSAPublicKeyFromPEM v = inr err) ->
  fst (ValidateToken ParseWithClaims token
         (snd (validatorMiddlewareBody ParseRSAPublicKeyFromPEM
                 GetVersionedSecret GetAll sec w)))
  = fst (ValidateToken ParseWithClaims token w).
Proof.
  intros Hwhy. apply ValidateToken_outcome_by_keys.
  rewrite update_keysValue.
  destruct Hwhy as [[err ->]|[versioned [-> Hall]]]; [reflexivity|].
  destruct (parsedKeys ParseRSAPublicKeyFromPEM (GetAll versioned))
    as [|k ks] eqn:Hp; [reflexivity|].
  assert (Hin : In k (parsedKeys ParseRSAPublicKeyFromPEM (GetAll versioned)))
    by (rewrite Hp; now left).
  apply parsedKeys_In in Hin as [v [Hv Hparse]].
  destruct (Hall v Hv) as [err Herr]. congruence.
Qed.

(** X12.  After an update that publishes, a token that no key of the new
    bundle accepts gets no claims, whatever was published before: keys that
    are only in the old set are no longer trusted. *)
Theorem rotated_out_key_is_rejected sec versioned w token :
  GetVersionedSecret sec authenticationPubKeySecretPath = inl versioned ->
  (exists v key, In v (GetAll versioned) /\ ParseRSAPublicKeyFromPEM v = inl key) ->
  (forall v key, In v (GetAll versioned) ->
     ParseRSAPublicKeyFromPEM v = inl key ->
     keyError ParseWithClaims token key <> None) ->
  fst (fst (ValidateToken ParseWithClaims token
              (snd (validatorMiddlewareBody ParseRSAPublicKeyFromPEM
                      GetVersionedSecret GetAll sec w)))) = None.
Proof.
  intros Hf [v0 [k0 [Hv0 Hk0]]] Hnone.
  assert (Hne : parsedKeys ParseRSAPublicKeyFromPEM (GetAll versioned) <> []).
  { intros Hnil.
    assert (Hin : In k0 (parsedKeys ParseRSAPublicKeyFromPEM (GetAll versioned)))
      by (apply parsedKeys_In; eauto).
    now rewrite Hnil in Hin. }
  rewrite (update_some_keys _ _ _ Hf Hne). simpl.
  unfold ValidateToken, bind, keysValue_Load. simpl.
  match goal with |- fst (fst ?run) = None => destruct (fst (fst run)) as [claims|] eqn:Hc end;
    [|reflexivity].
  destruct (validateLoop_sound _ _ _ _ _ Hc) as [_ [key [parsed [Hin [Hp Ha]]]]].
  apply parsedKeys_In in Hin as [v [Hv Hparse]].
  exfalso. apply (Hnone v key Hv Hparse).
  unfold keyError. now rewrite Hp, Ha.
Qed.

(** X13.  After an update that publishes, a token is validated against the
    new bundle in version order: when a version parses to a key that accepts
    the token, and the keys of the versions before it are passed over, the
    claims come back. *)
Theorem rotated_in_key_is_accepted sec versioned w token pre v post key parsed claims :
  GetVersionedSecret sec authenticationPubKeySecretPath = inl versioned ->
  GetAll versioned = pre ++ v :: post ->
  ParseRSAPublicKeyFromPEM v = inl key ->
  ParseWithClaims token key = inl parsed ->
  acceptedClaims parsed = Some claims ->
  (forall v' key', In v' pre ->
     ParseRSAPublicKeyFromPEM v' = inl key' ->
     passedOver ParseWithClaims token key' = true) ->
  fst (ValidateToken ParseWithClaims token
         (snd (validatorMiddlewareBody ParseRSAPublicKeyFromPEM
                 GetVersionedSecret GetAll sec w)))
  = (Some claims, None).
Proof.
  intros Hf Hall Hv Hp Ha Hpre.
  assert (Hkeys : parsedKeys ParseRSAPublicKeyFromPEM (GetAll versioned)
                  = parsedKeys ParseRSAPublicKeyFromPEM pre
                    ++ key :: parsedKeys ParseRSAPublicKeyFromPEM post).
  { rewrite Hall, parsedKeys_app. simpl. now rewrite Hv. }
  assert (Hne : parsedKeys ParseRSAPublicKeyFromPEM (GetAll versioned) <> []).
  { rewrite Hkeys. intros Hnil. apply app_eq_nil in Hnil as [_ Hnil].
    discriminate. }
  rewrite (update_some_keys _ _ _ Hf Hne). simpl.
  unfold ValidateToken, bind, keysValue_Load. simpl. rewrite Hkeys.
  rewrite validateLoop_prefix.
  - now rewrite (validateLoop_accept _ _ _ _ _ _ _ Hp Ha).
  - apply forallb_forall. intros k Hin.
    apply parsedKeys_In in Hin as [v' [Hv' Hparse]]. eauto.
Qed.

(** X14.  In every world reached from process start by updates and
    validations, [ValidateToken] returns claims or an error, never nil and
    nil. *)
Theorem reachable_never_nil_nil token w :
  reachable ParseWithClaims ParseRSAPublicKeyFromPEM GetVersionedSecret GetAll w ->
  fst (fst (ValidateToken ParseWithClaims token w)) <> None
  \/ snd (fst (ValidateToken ParseWithClaims token w)) <> None.
Proof.
  intros Hr. apply reachable_publishedNonEmpty in Hr.
  unfold publishedNonEmpty in Hr.
  unfold ValidateToken, bind, keysValue_Load.
  destruct (keysValue w) as [keys|].
  - apply validateLoop_not_both_nil. now left.
  - right. discriminate.
Qed.

(** X15.  The deferred [next] runs on every path, on the world the body
    leaves; so a chain of handlers keeps the published set non-empty when the
    rest of the chain does. *)
Theorem validatorMiddleware_keeps_published next sec w :
  (forall s, publishedNonEmpty s -> publishedNonEmpty (snd (next sec s))) ->
  publishedNonEmpty w ->
  validatorMiddleware ParseRSAPublicKeyFromPEM GetVersionedSecret GetAll next sec w
  = next sec (snd (validatorMiddlewareBody ParseRSAPublicKeyFromPEM
                     GetVersionedSecret GetAll sec w))
  /\ publishedNonEmpty
       (snd (validatorMiddleware ParseRSAPublicKeyFromPEM
               GetVersionedSecret GetAll next sec w)).
Proof.
  intros Hnext Hw. rewrite validatorMiddleware_defer.
  split; [reflexivity|].
  apply Hnext. now apply update_keeps_published.
Qed.

End Correctness.

(** * Evaluation on the concrete deployment *)

(** A failure held by pointer never ends the loop, so no list of kinds that
    names the malformed kind gives the abort rule of the code. *)
Lemma abort_rule_fails_on_pointer_failures (kinds : list Z) :
  In jwt.ValidationErrorMalformed kinds -> ~ abortsExactlyOn kinds.
Proof.
  intros Hin Hrule.
  assert (Hp : Example.byPointer "garbage" Example.K1
               = inr (ValidationErrorPointer
                        {| jwt.Inner := None;
                           jwt.Errors := jwt.ValidationErrorMalformed;
                           jwt.text := "token contains an invalid number of segments" |}))
    by reflexivity.
  destruct (Hrule string Example.byPointer "garbage" Example.K1 [Example.K2] None
              _ (Example.withKeys [Example.K1; Example.K2]) Hp) as [Habort _].
  assert (Hkind : hasKind kinds
                    (ValidationErrorPointer
                       {| jwt.Inner := None;
                          jwt.Errors := jwt.ValidationErrorMalformed;
                          jwt.text := "token contains an invalid number of segments" |})
                  = true).
  { unfold hasKind. simpl errorBits. apply anyBitSet_spec.
    exists jwt.ValidationErrorMalformed. split; [assumption | discriminate]. }
  specialize (Habort Hkind). vm_compute in Habort. discriminate Habort.
Qed.

(** C1 fails on the code.  With two published keys and a token of the wrong
    shape, the attempt under the first key fails with the malformed kind, one
    of the seven, held by pointer as jwt-go returns it.
    [shouldShortCircutError] does not recognise it, so the loop does not
    abort: it remembers the failure, tries the second key as well, and only
    then returns. *)
Theorem malformed_token_tries_both_keys :
  Example.byPointer "garbage" Example.K1
  = inr (ValidationErrorPointer
           {| jwt.Inner := None; jwt.Errors := jwt.ValidationErrorMalformed;
              jwt.text := "token contains an invalid number of segments" |})
  /\ hasKind specKinds
       (ValidationErrorPointer
          {| jwt.Inner := None; jwt.Errors := jwt.ValidationErrorMalformed;
             jwt.text := "token contains an invalid number of segments" |})
     = true
  /\ shouldShortCircutError
       (ValidationErrorPointer
          {| jwt.Inner := None; jwt.Errors := jwt.ValidationErrorMalformed;
             jwt.text := "token contains an invalid number of segments" |})
     = false
  /\ ValidateToken Example.byPointer "garbage"
       (Example.withKeys [Example.K1; Example.K2])
     = ((None,
         Some (ValidationErrorPointer
                 {| jwt.Inner := None; jwt.Errors := jwt.ValidationErrorMalformed;
                    jwt.text := "token contains an invalid number of segments" |})),
        recordAttempts [("garbage", Example.K1); ("garbage", Example.K2)]
          (Example.withKeys [Example.K1; Example.K2])).
Proof. repeat split. Qed.


(** C2 fails on the code.  jwt-go returns its [ValidationError] by pointer.
    With two published keys and an expired token signed by the first, the
    attempt under the first key fails with the expired kind, but
    [shouldShortCircutError] does not recognise the failure, and the loop does
    not stop there: both keys are tried, and the error of the second attempt,
    which also carries the expired bit, is returned. *)
Theorem expired_token_tries_both_keys :
  Example.byPointer "expired-signed-by-K1" Example.K1
  = inr (ValidationErrorPointer
           (Example.failure jwt.ValidationErrorExpired "token is expired by 1h0m0s"))
  /\ shouldShortCircutError
       (ValidationErrorPointer
          (Example.failure jwt.ValidationErrorExpired "token is expired by 1h0m0s"))
     = false
  /\ ValidateToken Example.byPointer "expired-signed-by-K1"
       (Example.withKeys [Example.K1; Example.K2])
     = ((None,
         Some (ValidationErrorPointer
                 (Example.failure
                    (Z.lor jwt.ValidationErrorExpired
                       jwt.ValidationErrorSignatureInvalid)
                    "crypto/rsa: verification error"))),
        recordAttempts
          [("expired-signed-by-K1", Example.K1); ("expired-signed-by-K1", Example.K2)]
          (Example.withKeys [Example.K1; Example.K2]))
  /\ hasKind [jwt.ValidationErrorExpired]
       (ValidationErrorPointer
          (Example.failure
             (Z.lor jwt.ValidationErrorExpired jwt.ValidationErrorSignatureInvalid)
             "crypto/rsa: verification error"))
     = true.
Proof. repeat split. Qed.

Lemma ValidateToken_no_keys_witness :
  keysValue Example.start = None
  /\ ValidateToken Example.byPointer "signed-by-K2" Example.start
     = ((None, Some (errorString "no public keys loaded")), Example.start).
Proof.
  split; [reflexivity|].
  apply (ValidateToken_no_keys string Example.byPointer "signed-by-K2" Example.start).
  reflexivity.
Defined.

Lemma update_without_keys_keeps_set_witness :
  Example.getVersionedSecret (Some ["junk"; "more junk"]) authenticationPubKeySecretPath
  = inl ["junk"; "more junk"]
  /\ parsedKeys Example.parsePEM (Example.getAll ["junk"; "more junk"]) = []
  /\ keysValue (snd (Example.update (Some ["junk"; "more junk"])
                       (Example.withKeys [Example.K1])))
     = Some [Example.K1].
Proof.
  split; [reflexivity | split; [reflexivity|]].
  apply (proj1 (proj2 (update_without_keys_keeps_set Example.parsePEM
                         (option (list string)) (list string)
                         Example.getVersionedSecret Example.getAll
                         (Some ["junk"; "more junk"])
                         (Example.withKeys [Example.K1])))
           ["junk"; "more junk"]); reflexivity.
Defined.

Lemma update_publishes_parsed_keys_witness :
  Example.update (Some ["PEM-K2"; "junk"; "PEM-K1"]) (Example.withKeys [Example.K1])
  = (tt,
     {| keysValue := Some [Example.K2; Example.K1];
        logged := ["Failed to parse key #1: Invalid Key: Key must be PEM encoded PKCS1 or PKCS8 private key"%string];
        attempts := [] |}).
Proof.
  assert (Hfetch : Example.getVersionedSecret (Some ["PEM-K2"; "junk"; "PEM-K1"])
                     authenticationPubKeySecretPath
                   = inl ["PEM-K2"; "junk"; "PEM-K1"]) by reflexivity.
  assert (Hsome : parsedKeys Example.parsePEM
                    (Example.getAll ["PEM-K2"; "junk"; "PEM-K1"]) <> [])
    by (vm_compute; discriminate).
  pose proof (proj1 (update_publishes_parsed_keys Example.parsePEM
                       (option (list string)) (list string)
                       Example.getVersionedSecret Example.getAll
                       (Some ["PEM-K2"; "junk"; "PEM-K1"]) ["PEM-K2"; "junk"; "PEM-K1"]
                       (Example.withKeys [Example.K1]) Hfetch Hsome)) as Hrun.
  vm_compute in Hrun. vm_compute. exact Hrun.
Defined.

Lemma first_accepting_key_wins_witness :
  ValidateToken Example.byPointer "signed-by-K2"
    (Example.withKeys [Example.K1; Example.K2])
  = ((Some "alice", None),
     recordAttempts [("signed-by-K2", Example.K1); ("signed-by-K2", Example.K2)]
       (Example.withKeys [Example.K1; Example.K2])).
Proof.
  apply (proj1 (first_accepting_key_wins string Example.byPointer "signed-by-K2"
                  (Example.withKeys [Example.K1; Example.K2]))
           Example.K1 Example.K2
           (ValidationErrorPointer
              (Example.failure jwt.ValidationErrorSignatureInvalid
                 "crypto/rsa: verification error"))
           (Example.parsedAs "RS256" "alice") "alice");
    reflexivity.
Defined.


Lemma rejected_token_tries_next_key_witness :
  exists tried untried,
    [] = tried ++ untried
    /\ snd (ValidateToken Example.byPointer "rs384-signed-by-K1"
              (Example.withKeys [Example.K1; Example.K2]))
       = recordAttempts
           (attemptsOf "rs384-signed-by-K1" ([] ++ Example.K1 :: Example.K2 :: tried))
           (Example.withKeys [Example.K1; Example.K2]).
Proof.
  assert (Halg : jwt.Alg (Method (Example.parsedAs "RS384" "alice")) <> jwtAlg
                 \/ TokenClaims (Example.parsedAs "RS384" "alice") = OtherClaims)
    by (left; vm_compute; discriminate).
  assert (Hkeys : keysValue (Example.withKeys [Example.K1; Example.K2])
                  = Some ([] ++ Example.K1 :: [Example.K2])) by reflexivity.
  assert (Hparse : Example.byPointer "rs384-signed-by-K1" Example.K1
                   = inl (Example.parsedAs "RS384" "alice")) by reflexivity.
  apply (proj1 (proj2 (rejected_token_tries_next_key string Example.byPointer
                         "rs384-signed-by-K1" [] Example.K1 [Example.K2]
                         (Example.parsedAs "RS384" "alice")
                         (Example.withKeys [Example.K1; Example.K2])
                         Hkeys (eq_refl true) Hparse Halg))
           Example.K2 []).
  reflexivity.
Defined.

Lemma ValidateToken_not_both_nil_witness :
  publishedNonEmpty (Example.withKeys [Example.K1])
  /\ (fst (fst (ValidateToken Example.byPointer "garbage"
                  (Example.withKeys [Example.K1]))) <> None
      \/ snd (fst (ValidateToken Example.byPointer "garbage"
                     (Example.withKeys [Example.K1]))) <> None).
Proof.
  split; [discriminate|].
  apply (ValidateToken_not_both_nil string Example.byPointer "garbage"
           (Example.withKeys [Example.K1])).
  discriminate.
Defined.

(** ** The further properties on the concrete deployment *)

Lemma ValidateToken_tries_prefix_witness :
  exists tried untried,
    [Example.K2; Example.K1] = tried ++ untried
    /\ snd (ValidateToken Example.byPointer "signed-by-K2"
              (Example.withKeys [Example.K2; Example.K1]))
       = recordAttempts (attemptsOf "signed-by-K2" tried)
           (Example.withKeys [Example.K2; Example.K1]).
Proof.
  apply (ValidateToken_tries_prefix string Example.byPointer "signed-by-K2"
           [Example.K2; Example.K1] (Example.withKeys [Example.K2; Example.K1])).
  reflexivity.
Defined.

Lemma ValidateToken_claims_sound_witness :
  snd (fst (ValidateToken Example.byPointer "signed-by-K2"
              (Example.withKeys [Example.K1; Example.K2]))) = None
  /\ exists keys key parsed,
      keysValue (Example.withKeys [Example.K1; Example.K2]) = Some keys
      /\ In key keys
      /\ Example.byPointer "signed-by-K2" key = inl parsed
      /\ TokenClaims parsed = AuthenticationTokenPtr "alice"%string
      /\ Valid parsed = true
      /\ jwt.Alg (Method parsed) = jwtAlg.
Proof.
  apply (ValidateToken_claims_sound string Example.byPointer "signed-by-K2"
           (Example.withKeys [Example.K1; Example.K2]) "alice"%string).
  reflexivity.
Defined.

Lemma ValidateToken_succeeds_iff_accepted_witness :
  fst (fst (ValidateToken Example.byPointer "signed-by-K2"
              (Example.withKeys [Example.K1; Example.K2]))) <> None
  <-> exists key parsed claims,
      In key [Example.K1; Example.K2]
      /\ Example.byPointer "signed-by-K2" key = inl parsed
      /\ acceptedClaims parsed = Some claims.
Proof.
  apply (ValidateToken_succeeds_iff_accepted string Example.byPointer
           "signed-by-K2" [Example.K1; Example.K2]
           (Example.withKeys [Example.K1; Example.K2])).
  - reflexivity.
  - intros key err [<-|[<-|[]]] Hp; vm_compute in Hp.
    + injection Hp as <-. reflexivity.
    + discriminate Hp.
Defined.

Lemma update_keys_provenance_witness :
  (exists keys, keysValue (Example.withKeys [Example.K1]) = Some keys
                /\ In Example.K2 keys)
  \/ (exists versioned v,
        Example.getVersionedSecret (Some ["PEM-K2"; "junk"])
          authenticationPubKeySecretPath = inl versioned
        /\ In v (Example.getAll versioned)
        /\ Example.parsePEM v = inl Example.K2).
Proof.
  apply (update_keys_provenance Example.parsePEM
           (option (list string)) (list string)
           Example.getVersionedSecret Example.getAll
           (Some ["PEM-K2"; "junk"]) (Example.withKeys [Example.K1])
           [Example.K2] Example.K2).
  - reflexivity.
  - left. reflexivity.
Defined.

Lemma discarded_update_keeps_outcomes_witness :
  fst (ValidateToken Example.byPointer "signed-by-K2"
         (snd (Example.update (Some ["junk"; "more junk"])
                 (Example.withKeys [Example.K1; Example.K2]))))
  = fst (ValidateToken Example.byPointer "signed-by-K2"
           (Example.withKeys [Example.K1; Example.K2])).
Proof.
  apply (discarded_update_keeps_outcomes string Example.byPointer Example.parsePEM
           (option (list string)) (list string)
           Example.getVersionedSecret Example.getAll
           (Some ["junk"; "more junk"])
           (Example.withKeys [Example.K1; Example.K2]) "signed-by-K2").
  right. exists ["junk"; "more junk"]. split; [reflexivity|].
  intros v [<-|[<-|[]]]; eexists; reflexivity.
Defined.

Lemma rotated_out_key_is_rejected_witness :
  fst (fst (ValidateToken Example.byPointer "signed-by-K2"
              (Example.withKeys [Example.K2]))) = Some "alice"%string
  /\ fst (fst (ValidateToken Example.byPointer "signed-by-K2"
                 (snd (Example.update (Some ["PEM-K1"])
                         (Example.withKeys [Example.K2]))))) = None.
Proof.
  split; [reflexivity|].
  apply (rotated_out_key_is_rejected string Example.byPointer Example.parsePEM
           (option (list string)) (list string)
           Example.getVersionedSecret Example.getAll
           (Some ["PEM-K1"]) ["PEM-K1"] (Example.withKeys [Example.K2])
           "signed-by-K2").
  - reflexivity.
  - exists "PEM-K1"%string, Example.K1. split; [now left | reflexivity].
  - intros v key [<-|[]] Hp. vm_compute in Hp. injection Hp as <-.
    vm_compute. discriminate.
Defined.

Lemma rotated_in_key_is_accepted_witness :
  fst (ValidateToken Example.byPointer "signed-by-K2"
         (snd (Example.update (Some ["junk"; "PEM-K1"; "PEM-K2"])
                 (Example.withKeys [Example.K1]))))
  = (Some "alice"%string, None).
Proof.
  apply (rotated_in_key_is_accepted string Example.byPointer Example.parsePEM
           (option (list string)) (list string)
           Example.getVersionedSecret Example.getAll
           (Some ["junk"; "PEM-K1"; "PEM-K2"]) ["junk"; "PEM-K1"; "PEM-K2"]
           (Example.withKeys [Example.K1]) "signed-by-K2"
           ["junk"; "PEM-K1"]%string "PEM-K2"%string [] Example.K2
           (Example.parsedAs "RS256" "alice") "alice"%string);
    try reflexivity.
  intros v' key' [<-|[<-|[]]] Hp; vm_compute in Hp.
  - discriminate Hp.
  - injection Hp as <-. reflexivity.
Defined.

Lemma reachable_never_nil_nil_witness :
  fst (fst (ValidateToken Example.byPointer "signed-by-K2"
              (snd (Example.update (Some ["PEM-K1"]) initialWorld)))) <> None
  \/ snd (fst (ValidateToken Example.byPointer "signed-by-K2"
                 (snd (Example.update (Some ["PEM-K1"]) initialWorld)))) <> None.
Proof.
  apply (reachable_never_nil_nil string Example.byPointer Example.parsePEM
           (option (list string)) (list string)
           Example.getVersionedSecret Example.getAll "signed-by-K2").
  apply reachable_step with initialWorld.
  - apply reachable_start.
  - apply (step_update string Example.byPointer Example.parsePEM
             (option (list string)) (list string)
             Example.getVersionedSecret Example.getAll (Some ["PEM-K1"]) initialWorld).
Defined.

Lemma validatorMiddleware_keeps_published_witness :
  publishedNonEmpty
    (snd (validatorMiddleware Example.parsePEM Example.getVersionedSecret
            Example.getAll (fun _ => logger "next handler")
            (Some ["junk"]) (Example.withKeys [Example.K1]))).
Proof.
  apply (validatorMiddleware_keeps_published Example.parsePEM
           (option (list string)) (list string)
           Example.getVersionedSecret Example.getAll
           (fun _ => logger "next handler") (Some ["junk"])
           (Example.withKeys [Example.K1])).
  - intros s Hs. exact Hs.
  - discriminate.
Defined.
